(** * dyrectorio: enumeration mappers, deployment controller, checkbox

  A shallow embedding of three units of the web application:

  - [NodeMappers]: crux-ui/src/server/crux/mappers/node-mappers.ts
  - [DeployHttpController]: crux/src/app/deploy/deploy.http.controller.ts
  - [DyoCheckbox]: crux-ui/src/elements/dyo-checkbox.tsx

  Protocol enumerations are numbers at run time and are embedded as [Z];
  string-literal unions are embedded as [string]; a value that may be
  [undefined] is an [option]; a call that may throw (or a promise that
  may reject) yields a [completion]. *)

From Stdlib Require Import ZArith String Ascii List Bool Lia.
Import ListNotations.

#[local] Open Scope string_scope.
#[local] Open Scope Z_scope.

(** ** The fragment of JavaScript the three units use *)
Module Js.

(** Outcome of evaluating a call: a value, or a thrown error. *)
Inductive completion (A : Type) : Type :=
| Normal (a : A)
| Throw (err : string).
Arguments Normal {A} a.
Arguments Throw {A} err.

(** Computations over a world [W] (everything a call may read or write:
    module state, service state, output). *)
Definition M (W A : Type) : Type := W -> completion A * W.

Definition ret {W A} (a : A) : M W A := fun w => (Normal a, w).

Definition bind {W A B} (c : M W A) (k : A -> M W B) : M W B :=
  fun w =>
    match c w with
    | (Normal a, w') => k a w'
    | (Throw e, w') => (Throw e, w')
    end.

(** [String.prototype.toLowerCase].  A string is its sequence of bytes
    (UTF-8), and it is ASCII when every byte is below 128.  On ASCII
    text the function maps the letters A to Z to a to z and keeps every
    other character.  On other text it applies the Unicode case mapping,
    which lowers letters outside ASCII and may change the length; that
    mapping is not spelled out here but taken as given. *)
Definition is_upper (c : ascii) : bool :=
  let n := nat_of_ascii c in (Nat.leb 65 n && Nat.leb n 90)%bool.

Definition toLowerCase_char (c : ascii) : ascii :=
  if is_upper c then ascii_of_nat (nat_of_ascii c + 32) else c.

Fixpoint toLowerCase_ascii (s : string) : string :=
  match s with
  | EmptyString => EmptyString
  | String c rest => String (toLowerCase_char c) (toLowerCase_ascii rest)
  end.

Fixpoint is_ascii (s : string) : bool :=
  match s with
  | EmptyString => true
  | String c rest => (Nat.ltb (nat_of_ascii c) 128 && is_ascii rest)%bool
  end.

(** The Unicode case mapping of the engine, used outside ASCII. *)
Class Unicode : Type := {
  unicode_toLowerCase : string -> string
}.

Definition toLowerCase {unicode : Unicode} (s : string) : string :=
  if is_ascii s then toLowerCase_ascii s else unicode_toLowerCase s.

(** [xs[i]]: [undefined] (here [None]) when [i] is out of range. *)
Definition index {A} (xs : list A) (i : nat) : option A := nth_error xs i.

(** [s === v] for a string [s] and a value [v] that is a string or
    [undefined]. *)
Definition strict_eq (s : string) (v : option string) : bool :=
  match v with
  | Some t => String.eqb s t
  | None => false
  end.

(** [!b] for [b : boolean | undefined]: [undefined] is falsy. *)
Definition truthy (b : option bool) : bool :=
  match b with
  | Some true => true
  | _ => false
  end.

Definition notb (b : option bool) : bool := negb (truthy b).

End Js.

Import Js.

Notation "x <- c ;; k" := (bind c (fun x => k))
(at level 61, c at next level, right associativity).

(** ** node-mappers.ts *)
Module NodeMappers.

(** What the file imports.  The generated protocol modules (proto/common,
    proto/crux) and the model constants are taken as given: enumeration
    members are numbers, [containerStateToJSON] is the generated name
    lookup, [NODE_TYPE_VALUES] the ordered list of node type names. *)
Class Imports : Type := {
  (* NodeType as GrpcNodeType *)
  GrpcNodeType_DOCKER : Z;
  GrpcNodeType_K8S : Z;
  (* NodeConnectionStatus *)
  NodeConnectionStatus_CONNECTED : Z;
  NodeConnectionStatus_UNREACHABLE : Z;
  (* ContainerOperation as ProtoContainerOperation *)
  START_CONTAINER : Z;
  STOP_CONTAINER : Z;
  RESTART_CONTAINER : Z;
  UNRECOGNIZED : Z;
  (* ContainerState as ProtoContainerState *)
  containerStateToJSON : Z -> completion string;
  NODE_TYPE_VALUES : list string
}.

Section Mappers.

Context {unicode : Unicode} {imports : Imports}.

Definition containerStateToDto (state : Z) : completion string :=
  match containerStateToJSON state with
  | Normal name => Normal (toLowerCase name)
  | Throw e => Throw e
  end.

Definition nodeTypeUiToGrpc (type : string) : Z :=
  if strict_eq type (index NODE_TYPE_VALUES 0)
  then GrpcNodeType_DOCKER
  else GrpcNodeType_K8S.

Definition nodeTypeGrpcToUi (type : Z) : option string :=
  if type =? GrpcNodeType_DOCKER
  then index NODE_TYPE_VALUES 0
  else index NODE_TYPE_VALUES 1.

Definition nodeStatusToDto (status : Z) : string :=
  if status =? NodeConnectionStatus_CONNECTED then "running"
  else if status =? NodeConnectionStatus_UNREACHABLE then "unreachable"
  else "unreachable".

Definition containerOperationToProto (it : string) : Z :=
  if String.eqb it "start" then START_CONTAINER
  else if String.eqb it "stop" then STOP_CONTAINER
  else if String.eqb it "restart" then RESTART_CONTAINER
  else UNRECOGNIZED.

End Mappers.

(** Modelled from the spec: [containerStateToJSON] is generated code
    that is not at hand.  The spec (4.1) has the mapper look up "the
    canonical name of the protocol enumeration value", with "no error
    path", and has every function "defined on its entire input domain
    via default-case fallback": a table of names per member, and one
    name for every number the table does not list.  Table and fallback
    name are left open. *)
Definition lookup_with_fallback (names : list (Z * string)) (fallback : string)
    (object : Z) : completion string :=
  match find (fun entry => fst entry =? object) names with
  | Some entry => Normal (snd entry)
  | None => Normal fallback
  end.

(** Modelled from the spec: the generated protocol modules and the list
    of node type names are imported by node-mappers.ts from files that
    are not at hand.  The spec fixes their shape: integer-valued
    enumerations with an unrecognized sentinel, a canonical name per
    container state, a name lookup with no error path, two connection
    statuses of interest, and a fixed two-element ordered list of node
    type names (a docker-like and a kubernetes-like one).  The member
    names and numbers here are examples of that shape, numbered by the
    protobuf convention (0 for the unspecified member, -1 for the
    sentinel).  No theorem depends on this instance; it serves to
    evaluate them. *)
Definition sample_names : list (Z * string) :=
  [(0, "CONTAINER_STATE_UNSPECIFIED"); (1, "RUNNING"); (2, "WAITING");
   (3, "EXITED"); (4, "REMOVED")].

(** Modelled from the spec: see [sample_names]. *)
Definition sample_containerStateToJSON (object : Z) : completion string :=
  lookup_with_fallback sample_names "UNRECOGNIZED" object.

(** The sample names are ASCII; the case mapping outside ASCII plays no
    part in evaluating on them and is the identity here. *)
Definition sample_unicode : Unicode := {|
  unicode_toLowerCase := fun s => s
|}.

(** Modelled from the spec: see [sample_names]. *)
Definition sample_imports : Imports := {|
  GrpcNodeType_DOCKER := 1;
  GrpcNodeType_K8S := 2;
  NodeConnectionStatus_CONNECTED := 2;
  NodeConnectionStatus_UNREACHABLE := 1;
  START_CONTAINER := 1;
  STOP_CONTAINER := 2;
  RESTART_CONTAINER := 3;
  UNRECOGNIZED := -1;
  containerStateToJSON := sample_containerStateToJSON;
  NODE_TYPE_VALUES := ["docker"; "k8s"]
|}.

End NodeMappers.

(** ** deploy.http.controller.ts: the two handlers that answer 201 *)
Module DeployHttpController.

(** The types the controller imports (deploy.dto, the identity of the
    request); of a deployment only its [id] is read. *)
Class Dtos : Type := {
  Identity : Type;
  CreateDeploymentDto : Type;
  DeploymentDto : Type;
  id : DeploymentDto -> string
}.

(** What the framework hands over for [@Query('force')]: declared
    boolean, a string or nothing when the pipe does not convert it. *)
Inductive QueryValue : Type :=
| QueryBoolean (b : bool)
| QueryString (s : string)
| QueryUndefined.

Section Controller.

Context {dtos : Dtos}.

(** The injected [DeployService], as far as the two handlers call it.
    A call acts on the service's state [S] and may reject. *)
Record DeployService (S : Type) : Type := {
  service_createDeployment : CreateDeploymentDto -> Identity -> M S DeploymentDto;
  service_copyDeployment : string -> Identity -> M S DeploymentDto
}.
Arguments service_createDeployment {S} _ _ _ _.
Arguments service_copyDeployment {S} _ _ _ _.

Record CreatedResponse : Type := {
  url : string;
  body : DeploymentDto
}.

Definition ROUTE_DEPLOYMENTS : string := "deployments".

Definition locationOf (deploymentId : string) : string :=
  "/" ++ ROUTE_DEPLOYMENTS ++ "/" ++ deploymentId.

Definition createDeployment {S} (service : DeployService S)
    (request : CreateDeploymentDto) (identity : Identity) : M S CreatedResponse :=
  deployment <- service_createDeployment service request identity ;;
  ret {| url := locationOf (id deployment); body := deployment |}.

Definition copyDeployment {S} (service : DeployService S)
    (_ : QueryValue) (deploymentId : string) (identity : Identity) : M S CreatedResponse :=
  deployment <- service_copyDeployment service deploymentId identity ;;
  ret {| url := locationOf (id deployment); body := deployment |}.

(** A service call as an observer sees it: the method and its arguments. *)
Inductive ServiceCall : Type :=
| CreateDeploymentCall (request : CreateDeploymentDto) (identity : Identity)
| CopyDeploymentCall (deploymentId : string) (identity : Identity).

(** Any service, wrapped so that it keeps a log of the calls made. *)
Definition logged {S A} (call : ServiceCall) (c : M S A) : M (list ServiceCall * S) A :=
  fun w =>
    let (r, s') := c (snd w) in (r, (fst w ++ [call], s'))%list.

Definition spy {S} (service : DeployService S) : DeployService (list ServiceCall * S) := {|
  service_createDeployment request identity :=
    logged (CreateDeploymentCall request identity)
           (service_createDeployment service request identity);
  service_copyDeployment deploymentId identity :=
    logged (CopyDeploymentCall deploymentId identity)
           (service_copyDeployment service deploymentId identity)
|}.

End Controller.

Arguments service_createDeployment {dtos S} _ _ _ _.
Arguments service_copyDeployment {dtos S} _ _ _ _.

(** Modelled from the spec: deploy.dto and deploy.service are not at
    hand; the spec says of them only that the controller delegates every
    operation to an injected service backed by a store.  A small service
    over a list of deployments, each an id and a prefix, serves to
    evaluate the handlers: creating derives the id from the request,
    copying looks the deployment up and rejects when there is none. *)
Definition sample_dtos : Dtos := {|
  Identity := string;
  CreateDeploymentDto := string;
  DeploymentDto := string * string;
  id := fst
|}.

(** Modelled from the spec: see [sample_dtos]. *)
Definition sample_create (request identity : string) :
    M (list (string * string)) (string * string) :=
  fun store =>
    let deployment := ("id-of-" ++ request, request) in
    (Normal deployment, (store ++ [deployment])%list).

(** Modelled from the spec: see [sample_dtos]. *)
Definition sample_copy (deploymentId identity : string) :
    M (list (string * string)) (string * string) :=
  fun store =>
    match find (fun d => String.eqb (fst d) deploymentId) store with
    | Some d =>
        let deployment := (deploymentId ++ "-copy", snd d) in
        (Normal deployment, (store ++ [deployment])%list)
    | None => (Throw "NotFound", store)
    end.

(** Modelled from the spec: see [sample_dtos]. *)
Definition sample_service : @DeployService sample_dtos (list (string * string)) :=
  @Build_DeployService sample_dtos _ sample_create sample_copy.

End DeployHttpController.

(** ** dyo-checkbox.tsx *)
Module DyoCheckbox.

Section Checkbox.

(** React's two event types, and the state of the application the
    callbacks act on (the form, the parent component). *)
Variables MouseEvent ChangeEvent AppState : Type.

(** [React.MouseEvent<HTMLDivElement, MouseEvent> | React.ChangeEvent<HTMLInputElement>] *)
Inductive Event : Type :=
| Click (e : MouseEvent)
| Change (e : ChangeEvent).

(** [FormikSetFieldValue] and the type of [onCheckedChange].  Either may
    throw; what it returns is dropped. *)
Definition FormikSetFieldValue : Type :=
  option string -> bool -> bool -> M AppState unit.

Definition OnCheckedChange : Type :=
  bool -> Event -> M AppState unit.

Record DyoCheckboxProps : Type := {
  className : option string;
  name : option string;
  checked : option bool;
  setFieldValue : option FormikSetFieldValue;
  onCheckedChange : option OnCheckedChange
}.

(** A call of one of the two callbacks with its arguments, as the
    callback receives them. *)
Inductive Call : Type :=
| SetFieldValueCall (field : option string) (value : bool) (shouldValidate : bool)
| OnCheckedChangeCall (isChecked : bool) (event : Event).

(** The world of the handler: the calls made so far, in order, and the
    application state. *)
Definition World : Type := (list Call * AppState)%type.

(** [f.call(this, args)]: the call is made, then the callback runs. *)
Definition call (c : Call) (f : M AppState unit) : M World unit :=
  fun w =>
    let (r, s') := f (snd w) in (r, (fst w ++ [c], s'))%list.

Definition handleCheckedChange (props : DyoCheckboxProps)
    (isChecked : bool) (event : Event) : M World unit :=
  _ <- match setFieldValue props with
       | Some f => call (SetFieldValueCall (name props) isChecked false)
                        (f (name props) isChecked false)
       | None => ret tt
       end ;;
  match onCheckedChange props with
  | Some g => call (OnCheckedChangeCall isChecked event) (g isChecked event)
  | None => ret tt
  end.

(** What the component renders, as far as behaviour goes: the handlers
    of the div and of the hidden input, whether the check mark is drawn
    and the input's [checked] attribute. *)
Record Element : Type := {
  onClick : MouseEvent -> M World unit;
  checkMark : bool;
  input_checked : option bool;
  onChange : ChangeEvent -> M World unit
}.

Definition DyoCheckbox (props : DyoCheckboxProps) : Element := {|
  onClick e := handleCheckedChange props (notb (checked props)) (Click e);
  checkMark := negb (notb (checked props));
  input_checked := checked props;
  onChange e := handleCheckedChange props (notb (checked props)) (Change e)
|}.

(** A click on the div or a change of the input, sent to its handler. *)
Definition dispatch (element : Element) (event : Event) : M World unit :=
  match event with
  | Click e => onClick element e
  | Change e => onChange element e
  end.

(** *** The behaviour the handler is expected to have, in words of its
    own: the value reported is the negation of the [checked] prop, [true]
    when the prop is undefined, and the callbacks provided are called in
    the order [setFieldValue], [onCheckedChange]. *)
Definition expected_value (props : DyoCheckboxProps) : bool :=
  match checked props with
  | Some b => negb b
  | None => true
  end.

Definition expected_calls (props : DyoCheckboxProps) (event : Event) : list Call :=
  (match setFieldValue props with
   | Some _ => [SetFieldValueCall (name props) (expected_value props) false]
   | None => []
   end ++
   match onCheckedChange props with
   | Some _ => [OnCheckedChangeCall (expected_value props) event]
   | None => []
   end)%list.

End Checkbox.

Arguments Click {MouseEvent ChangeEvent} e.
Arguments Change {MouseEvent ChangeEvent} e.
Arguments SetFieldValueCall {MouseEvent ChangeEvent} field value shouldValidate.
Arguments OnCheckedChangeCall {MouseEvent ChangeEvent} isChecked event.
Arguments className {MouseEvent ChangeEvent AppState} _.
Arguments name {MouseEvent ChangeEvent AppState} _.
Arguments checked {MouseEvent ChangeEvent AppState} _.
Arguments setFieldValue {MouseEvent ChangeEvent AppState} _.
Arguments onCheckedChange {MouseEvent ChangeEvent AppState} _.
Arguments handleCheckedChange {MouseEvent ChangeEvent AppState} props isChecked event _.
Arguments DyoCheckbox {MouseEvent ChangeEvent AppState} props.
Arguments onClick {MouseEvent ChangeEvent AppState} _ _ _.
Arguments onChange {MouseEvent ChangeEvent AppState} _ _ _.
Arguments checkMark {MouseEvent ChangeEvent AppState} _.
Arguments input_checked {MouseEvent ChangeEvent AppState} _.
Arguments expected_value {MouseEvent ChangeEvent AppState} props.
Arguments expected_calls {MouseEvent ChangeEvent AppState} props event.
Arguments dispatch {MouseEvent ChangeEvent AppState} element event _.

(** A form that keeps the last value set per field, and a checkbox bound
    to its field 'agree': [setFieldValue] stores the value,
    [onCheckedChange] does nothing. *)
Definition sample_props (isChecked : option bool) :
    DyoCheckboxProps unit unit (list (option string * bool)) := {|
  className := None;
  name := Some "agree";
  checked := isChecked;
  setFieldValue := Some (fun field value _ form => (Normal tt, (field, value) :: form));
  onCheckedChange := Some (fun _ _ form => (Normal tt, form))
|}.

(** The same checkbox under a form whose [setFieldValue] throws. *)
Definition sample_props_throwing (isChecked : option bool) :
    DyoCheckboxProps unit unit (list (option string * bool)) := {|
  className := None;
  name := Some "agree";
  checked := isChecked;
  setFieldValue := Some (fun _ _ _ form => (Throw "TypeError", form));
  onCheckedChange := Some (fun _ _ form => (Normal tt, form))
|}.

End DyoCheckbox.

(** ** deploy.http.controller.ts: the other handlers *)
Module DeployHttpHandlers.

Import DeployHttpController.

(** The remaining types of deploy.dto and of shared/dtos/paginating.
    [ServiceAnswer] is whatever the promises of the patch, delete and
    start methods resolve to; the handlers await it and drop it. *)
Class MoreDtos : Type := {
  DeploymentDetailsDto : Type;
  DeploymentEventDto : Type;
  InstanceDto : Type;
  InstanceSecretsDto : Type;
  PatchDeploymentDto : Type;
  PatchInstanceDto : Type;
  DeploymentLogListDto : Type;
  PaginationQuery : Type;
  ServiceAnswer : Type
}.

Section Handlers.

Context {dtos : Dtos} {more : MoreDtos}.

(** The methods of [DeployService] the other handlers call. *)
Record DeployOperations (S : Type) : Type := {
  service_getDeployments : Identity -> M S (list DeploymentDto);
  service_getDeploymentDetails : string -> M S DeploymentDetailsDto;
  service_getDeploymentEvents : string -> M S (list DeploymentEventDto);
  service_getInstance : string -> M S InstanceDto;
  service_getInstanceSecrets : string -> M S InstanceSecretsDto;
  service_patchDeployment : string -> PatchDeploymentDto -> Identity -> M S ServiceAnswer;
  service_patchInstance :
    string -> string -> PatchInstanceDto -> Identity -> M S ServiceAnswer;
  service_deleteDeployment : string -> M S ServiceAnswer;
  service_startDeployment : string -> Identity -> M S ServiceAnswer;
  service_getDeploymentLog : string -> PaginationQuery -> M S DeploymentLogListDto
}.
Arguments service_getDeployments {S} _ _ _.
Arguments service_getDeploymentDetails {S} _ _ _.
Arguments service_getDeploymentEvents {S} _ _ _.
Arguments service_getInstance {S} _ _ _.
Arguments service_getInstanceSecrets {S} _ _ _.
Arguments service_patchDeployment {S} _ _ _ _ _.
Arguments service_patchInstance {S} _ _ _ _ _ _.
Arguments service_deleteDeployment {S} _ _ _.
Arguments service_startDeployment {S} _ _ _ _.
Arguments service_getDeploymentLog {S} _ _ _ _.

Variable S : Type.
Variable service : DeployOperations S.

Definition getDeployments (identity : Identity) : M S (list DeploymentDto) :=
  deployments <- service_getDeployments service identity ;; ret deployments.

Definition getDeploymentDetails (deploymentId : string) : M S DeploymentDetailsDto :=
  details <- service_getDeploymentDetails service deploymentId ;; ret details.

Definition getDeploymentEvents (deploymentId : string) : M S (list DeploymentEventDto) :=
  events <- service_getDeploymentEvents service deploymentId ;; ret events.

Definition getInstance (_deploymentId instanceId : string) : M S InstanceDto :=
  instance <- service_getInstance service instanceId ;; ret instance.

Definition getDeploymentSecrets (_deploymentId instanceId : string) : M S InstanceSecretsDto :=
  secrets <- service_getInstanceSecrets service instanceId ;; ret secrets.

Definition patchDeployment (deploymentId : string) (request : PatchDeploymentDto)
    (identity : Identity) : M S unit :=
  _ <- service_patchDeployment service deploymentId request identity ;; ret tt.

Definition patchInstance (deploymentId instanceId : string) (request : PatchInstanceDto)
    (identity : Identity) : M S unit :=
  _ <- service_patchInstance service deploymentId instanceId request identity ;; ret tt.

Definition deleteDeployment (deploymentId : string) : M S unit :=
  _ <- service_deleteDeployment service deploymentId ;; ret tt.

Definition startDeployment (deploymentId : string) (identity : Identity) : M S unit :=
  _ <- service_startDeployment service deploymentId identity ;; ret tt.

(** Returns the service's promise itself; the async function adopts it. *)
Definition deploymentLog (deploymentId : string) (query : PaginationQuery) :
    M S DeploymentLogListDto :=
  service_getDeploymentLog service deploymentId query.

End Handlers.

Arguments service_getDeployments {dtos more S} _ _ _.
Arguments service_getDeploymentDetails {dtos more S} _ _ _.
Arguments service_getDeploymentEvents {dtos more S} _ _ _.
Arguments service_getInstance {dtos more S} _ _ _.
Arguments service_getInstanceSecrets {dtos more S} _ _ _.
Arguments service_patchDeployment {dtos more S} _ _ _ _ _.
Arguments service_patchInstance {dtos more S} _ _ _ _ _ _.
Arguments service_deleteDeployment {dtos more S} _ _ _.
Arguments service_startDeployment {dtos more S} _ _ _ _.
Arguments service_getDeploymentLog {dtos more S} _ _ _ _.
Arguments getDeployments {dtos more S} service identity _.
Arguments getDeploymentDetails {dtos more S} service deploymentId _.
Arguments getDeploymentEvents {dtos more S} service deploymentId _.
Arguments getInstance {dtos more S} service _deploymentId instanceId _.
Arguments getDeploymentSecrets {dtos more S} service _deploymentId instanceId _.
Arguments patchDeployment {dtos more S} service deploymentId request identity _.
Arguments patchInstance {dtos more S} service deploymentId instanceId request identity _.
Arguments deleteDeployment {dtos more S} service deploymentId _.
Arguments startDeployment {dtos more S} service deploymentId identity _.
Arguments deploymentLog {dtos more S} service deploymentId query _.

End DeployHttpHandlers.

(** ** dyo-checkbox.tsx: what a call reports *)
Module DyoCheckboxCalls.

Import DyoCheckbox.

(** The boolean a callback receives: the value of [setFieldValue], the
    first argument of [onCheckedChange]. *)
Definition value_of {MouseEvent ChangeEvent : Type}
    (c : Call MouseEvent ChangeEvent) : bool :=
  match c with
  | SetFieldValueCall _ value _ => value
  | OnCheckedChangeCall isChecked _ => isChecked
  end.

End DyoCheckboxCalls.

(** * Properties *)

(** ** The JavaScript fragment *)
Module JsFacts.

Lemma toLowerCase_char_fixed (c : ascii) :
  toLowerCase_char (toLowerCase_char c) = toLowerCase_char c.
Proof.
  destruct c as [[] [] [] [] [] [] [] []]; reflexivity.
Qed.

Lemma toLowerCase_char_not_upper (c : ascii) :
  is_upper (toLowerCase_char c) = false.
Proof.
  destruct c as [[] [] [] [] [] [] [] []]; reflexivity.
Qed.

Lemma toLowerCase_char_other (c : ascii) :
  is_upper c = false -> toLowerCase_char c = c.
Proof.
  unfold toLowerCase_char. intros ->. reflexivity.
Qed.

Lemma toLowerCase_ascii_length (s : string) :
  String.length (toLowerCase_ascii s) = String.length s.
Proof.
  induction s as [|c s IH]; simpl; [reflexivity | now rewrite IH].
Qed.

Lemma toLowerCase_ascii_get (s : string) (i : nat) :
  String.get i (toLowerCase_ascii s) = option_map toLowerCase_char (String.get i s).
Proof.
  revert i. induction s as [|c s IH]; intros i; simpl; [reflexivity|].
  destruct i as [|i]; [reflexivity | apply IH].
Qed.

Lemma toLowerCase_ascii_no_upper (s : string) :
  forallb (fun c => negb (is_upper c)) (list_ascii_of_string (toLowerCase_ascii s)) = true.
Proof.
  induction s as [|c s IH]; simpl; [reflexivity|].
  now rewrite toLowerCase_char_not_upper, IH.
Qed.

Lemma toLowerCase_char_ascii (c : ascii) :
  Nat.ltb (nat_of_ascii (toLowerCase_char c)) 128 = Nat.ltb (nat_of_ascii c) 128.
Proof.
  destruct c as [[] [] [] [] [] [] [] []]; reflexivity.
Qed.

Lemma toLowerCase_ascii_is_ascii (s : string) :
  is_ascii (toLowerCase_ascii s) = is_ascii s.
Proof.
  induction s as [|c s IH]; simpl; [reflexivity|].
  now rewrite toLowerCase_char_ascii, IH.
Qed.

(** On ASCII text [toLowerCase] is the letter by letter mapping. *)
Lemma toLowerCase_on_ascii {unicode : Unicode} (s : string) :
  is_ascii s = true -> toLowerCase s = toLowerCase_ascii s.
Proof.
  unfold toLowerCase. now intros ->.
Qed.

Lemma toLowerCase_idempotent_on_ascii {unicode : Unicode} (s : string) :
  is_ascii s = true -> toLowerCase (toLowerCase s) = toLowerCase s.
Proof.
  intros Hascii. rewrite (toLowerCase_on_ascii s Hascii).
  rewrite toLowerCase_on_ascii by now rewrite toLowerCase_ascii_is_ascii.
  induction s as [|c s IH]; simpl in *; [reflexivity|].
  apply andb_true_iff in Hascii as [_ Hrest].
  now rewrite toLowerCase_char_fixed, IH.
Qed.

Example toLowerCase_name {unicode : Unicode} :
  toLowerCase "CONTAINER_STATE_UNSPECIFIED" = "container_state_unspecified".
Proof. reflexivity. Qed.

Lemma strict_eq_iff (s : string) (v : option string) :
  strict_eq s v = true <-> Some s = v.
Proof.
  destruct v as [t|]; simpl.
  - rewrite String.eqb_eq. split; congruence.
  - split; discriminate.
Qed.

Lemma bind_ret_l {W A B} (a : A) (k : A -> M W B) (w : W) :
  bind (ret a) k w = k a w.
Proof. reflexivity. Qed.

Lemma bind_normal {W A B} (c : M W A) (k : A -> M W B) (w w' : W) (a : A) :
  c w = (Normal a, w') -> bind c k w = k a w'.
Proof. unfold bind. now intros ->. Qed.

Lemma bind_throw {W A B} (c : M W A) (k : A -> M W B) (w w' : W) (e : string) :
  c w = (Throw e, w') -> bind c k w = (Throw e, w').
Proof. unfold bind. now intros ->. Qed.

End JsFacts.

(** ** node-mappers.ts *)
Module NodeMappersFacts.

Import NodeMappers JsFacts.

Section Facts.

Context {unicode : Unicode} {imports : Imports}.

(** The result of each mapper, case by case. *)

Lemma nodeStatusToDto_connected :
  nodeStatusToDto NodeConnectionStatus_CONNECTED = "running".
Proof. unfold nodeStatusToDto. now rewrite Z.eqb_refl. Qed.

Lemma nodeStatusToDto_other (status : Z) :
  status <> NodeConnectionStatus_CONNECTED -> nodeStatusToDto status = "unreachable".
Proof.
  intros Hne. unfold nodeStatusToDto.
  apply Z.eqb_neq in Hne. rewrite Hne.
  now destruct (status =? NodeConnectionStatus_UNREACHABLE).
Qed.

Lemma nodeStatusToDto_cases (status : Z) :
  nodeStatusToDto status = "running" \/ nodeStatusToDto status = "unreachable".
Proof.
  destruct (Z.eq_dec status NodeConnectionStatus_CONNECTED) as [->|Hne].
  - left. apply nodeStatusToDto_connected.
  - right. now apply nodeStatusToDto_other.
Qed.

Lemma containerOperationToProto_other (it : string) :
  it <> "start" -> it <> "stop" -> it <> "restart" ->
  containerOperationToProto it = UNRECOGNIZED.
Proof.
  intros H1 H2 H3. unfold containerOperationToProto.
  apply String.eqb_neq in H1, H2, H3. now rewrite H1, H2, H3.
Qed.


Lemma nodeTypeGrpcToUi_docker :
  nodeTypeGrpcToUi GrpcNodeType_DOCKER = index NODE_TYPE_VALUES 0.
Proof. unfold nodeTypeGrpcToUi. now rewrite Z.eqb_refl. Qed.

Lemma nodeTypeGrpcToUi_other (type : Z) :
  type <> GrpcNodeType_DOCKER -> nodeTypeGrpcToUi type = index NODE_TYPE_VALUES 1.
Proof.
  intros Hne. unfold nodeTypeGrpcToUi. apply Z.eqb_neq in Hne. now rewrite Hne.
Qed.

Lemma nodeTypeUiToGrpc_first (type : string) :
  Some type = index NODE_TYPE_VALUES 0 -> nodeTypeUiToGrpc type = GrpcNodeType_DOCKER.
Proof.
  intros Hty. unfold nodeTypeUiToGrpc.
  apply strict_eq_iff in Hty. now rewrite Hty.
Qed.

Lemma nodeTypeUiToGrpc_other (type : string) :
  Some type <> index NODE_TYPE_VALUES 0 -> nodeTypeUiToGrpc type = GrpcNodeType_K8S.
Proof.
  intros Hty. unfold nodeTypeUiToGrpc.
  destruct (strict_eq type (index NODE_TYPE_VALUES 0)) eqn:E; [|reflexivity].
  apply strict_eq_iff in E. contradiction.
Qed.

Lemma containerStateToDto_throws (state : Z) (e : string) :
  containerStateToDto state = Throw e <-> containerStateToJSON state = Throw e.
Proof.
  unfold containerStateToDto.
  destruct (containerStateToJSON state); split; congruence.
Qed.

(** C2: [containerOperationToProto] sends 'start', 'stop' and 'restart'
    to START_CONTAINER, STOP_CONTAINER and RESTART_CONTAINER, and every
    other string, 'pause' among them, to UNRECOGNIZED; it is a function
    into the enumeration, with no error path. *)
Theorem containerOperationToProto_table :
  containerOperationToProto "start" = START_CONTAINER /\
  containerOperationToProto "stop" = STOP_CONTAINER /\
  containerOperationToProto "restart" = RESTART_CONTAINER /\
  (forall it : string,
     it <> "start" -> it <> "stop" -> it <> "restart" ->
     containerOperationToProto it = UNRECOGNIZED) /\
  containerOperationToProto "pause" = UNRECOGNIZED.
Proof.
  repeat split; try reflexivity.
  exact containerOperationToProto_other.
Qed.

(** C3: [nodeStatusToDto] returns 'running' exactly when the status is
    CONNECTED and 'unreachable' for every other number, known to the
    enumeration or not; both results occur and no other does. *)
Theorem nodeStatusToDto_running_iff_connected :
  (forall status : Z,
     nodeStatusToDto status = "running" <-> status = NodeConnectionStatus_CONNECTED) /\
  (forall status : Z,
     status <> NodeConnectionStatus_CONNECTED -> nodeStatusToDto status = "unreachable") /\
  (forall dto : string,
     (exists status : Z, nodeStatusToDto status = dto) <->
     dto = "running" \/ dto = "unreachable").
Proof.
  split; [|split].
  - intros status. split.
    + intros Hrun.
      destruct (Z.eq_dec status NodeConnectionStatus_CONNECTED) as [|Hne]; [assumption|].
      rewrite (nodeStatusToDto_other _ Hne) in Hrun. discriminate.
    + intros ->. apply nodeStatusToDto_connected.
  - exact nodeStatusToDto_other.
  - intros dto. split.
    + intros [status <-]. apply nodeStatusToDto_cases.
    + intros [-> | ->].
      * exists NodeConnectionStatus_CONNECTED. apply nodeStatusToDto_connected.
      * exists (NodeConnectionStatus_CONNECTED + 1).
        apply nodeStatusToDto_other. lia.
Qed.

(** C4: both node type mappers test their argument against one value.
    [nodeTypeGrpcToUi] returns the first entry of NODE_TYPE_VALUES for
    DOCKER and the second entry for every other number;
    [nodeTypeUiToGrpc] returns DOCKER for the first entry and K8S for
    every other string. *)
Theorem node_type_mappers_binary :
  (forall type : Z,
     (type = GrpcNodeType_DOCKER ->
      nodeTypeGrpcToUi type = index NODE_TYPE_VALUES 0) /\
     (type <> GrpcNodeType_DOCKER ->
      nodeTypeGrpcToUi type = index NODE_TYPE_VALUES 1)) /\
  (forall type : string,
     (Some type = index NODE_TYPE_VALUES 0 ->
      nodeTypeUiToGrpc type = GrpcNodeType_DOCKER) /\
     (Some type <> index NODE_TYPE_VALUES 0 ->
      nodeTypeUiToGrpc type = GrpcNodeType_K8S)).
Proof.
  split; intros type; split.
  - intros ->. apply nodeTypeGrpcToUi_docker.
  - apply nodeTypeGrpcToUi_other.
  - apply nodeTypeUiToGrpc_first.
  - apply nodeTypeUiToGrpc_other.
Qed.

(** C5: on the two categories the node type mappers undo each other.
    With NODE_TYPE_VALUES made of two different names and DOCKER and K8S
    two different numbers, going to the protocol and back returns either
    name, and going to the name and back returns either number. *)
Theorem node_type_round_trip (first second : string) :
  NODE_TYPE_VALUES = [first; second] ->
  first <> second ->
  GrpcNodeType_DOCKER <> GrpcNodeType_K8S ->
  (forall type : string,
     In type NODE_TYPE_VALUES ->
     nodeTypeGrpcToUi (nodeTypeUiToGrpc type) = Some type) /\
  (forall type : Z,
     type = GrpcNodeType_DOCKER \/ type = GrpcNodeType_K8S ->
     exists ui : string,
       nodeTypeGrpcToUi type = Some ui /\ nodeTypeUiToGrpc ui = type).
Proof.
  intros Hvalues Hnames Henum.
  assert (H0 : index NODE_TYPE_VALUES 0 = Some first) by now rewrite Hvalues.
  assert (H1 : index NODE_TYPE_VALUES 1 = Some second) by now rewrite Hvalues.
  assert (Hfirst : nodeTypeUiToGrpc first = GrpcNodeType_DOCKER).
  { apply nodeTypeUiToGrpc_first. now rewrite H0. }
  assert (Hsecond : nodeTypeUiToGrpc second = GrpcNodeType_K8S).
  { apply nodeTypeUiToGrpc_other. rewrite H0. congruence. }
  split.
  - intros type Hin. rewrite Hvalues in Hin.
    destruct Hin as [<- | [<- | []]].
    + rewrite Hfirst, nodeTypeGrpcToUi_docker. exact H0.
    + rewrite Hsecond, nodeTypeGrpcToUi_other by congruence. exact H1.
  - intros type [-> | ->].
    + exists first. split; [|exact Hfirst].
      rewrite nodeTypeGrpcToUi_docker. exact H0.
    + exists second. split; [|exact Hsecond].
      rewrite nodeTypeGrpcToUi_other by congruence. exact H1.
Qed.

Lemma containerStateToDto_returns (state : Z) (dto : string) :
  containerStateToDto state = Normal dto <->
  exists name : string,
    containerStateToJSON state = Normal name /\ dto = toLowerCase name.
Proof.
  unfold containerStateToDto.
  destruct (containerStateToJSON state) as [name|e]; split.
  - intros [= <-]. now exists name.
  - intros (name' & [= <-] & ->). reflexivity.
  - discriminate.
  - intros (name' & Hname & _). discriminate.
Qed.

(** C6: for a valid container state, one the generated lookup has a
    name for, [containerStateToDto] returns the lower-case form of that
    name.  Protocol names are ASCII, and for an ASCII name the result has
    the same length, carries at every position the character of the name
    with the letters A to Z replaced by their small letters, and holds no
    capital letter. *)
Theorem containerStateToDto_lowercase (state : Z) (name : string) :
  containerStateToJSON state = Normal name ->
  is_ascii name = true ->
  exists dto : string,
    containerStateToDto state = Normal dto /\
    dto = toLowerCase name /\
    String.length dto = String.length name /\
    (forall i : nat,
       String.get i dto = option_map toLowerCase_char (String.get i name)) /\
    forallb (fun c => negb (is_upper c)) (list_ascii_of_string dto) = true.
Proof.
  intros Hname Hascii. exists (toLowerCase name).
  split; [apply containerStateToDto_returns; now exists name|].
  split; [reflexivity|].
  rewrite (toLowerCase_on_ascii name Hascii).
  split; [apply toLowerCase_ascii_length|].
  split; [intros i; apply toLowerCase_ascii_get|].
  apply toLowerCase_ascii_no_upper.
Qed.





End Facts.

(** *** The theorems at the sample imports *)


Lemma node_type_round_trip_sample :
  @nodeTypeGrpcToUi sample_imports (@nodeTypeUiToGrpc sample_imports "k8s") = Some "k8s" /\
  exists ui : string,
    @nodeTypeGrpcToUi sample_imports 2 = Some ui /\ @nodeTypeUiToGrpc sample_imports ui = 2.
Proof.
  assert (Hnames : "docker" <> "k8s") by discriminate.
  assert (Henum : 1 <> 2) by discriminate.
  destruct (@node_type_round_trip sample_imports "docker" "k8s" eq_refl Hnames Henum)
    as [Hui Hgrpc].
  split.
  - apply Hui. simpl. tauto.
  - apply Hgrpc. now right.
Defined.

Lemma containerStateToDto_lowercase_sample :
  sample_containerStateToJSON 1 = Normal "RUNNING" /\
  @containerStateToDto sample_unicode sample_imports 1 = Normal "running".
Proof.
  split; [reflexivity|].
  destruct (@containerStateToDto_lowercase sample_unicode sample_imports 1 "RUNNING"
              eq_refl eq_refl) as (dto & Hdto & -> & _).
  exact Hdto.
Defined.

End NodeMappersFacts.

(** ** deploy.http.controller.ts *)
Module DeployHttpControllerFacts.

Import DeployHttpController JsFacts.

Section Facts.

Context {dtos : Dtos} {S : Type}.
Variable service : DeployService S.

Lemma locationOf_deployments (deploymentId : string) :
  locationOf deploymentId = "/deployments/" ++ deploymentId.
Proof. reflexivity. Qed.

(** A handler that awaits one service call and wraps what it got. *)
Lemma created_response_iff (c : M S DeploymentDto) (s s' : S) (response : CreatedResponse) :
  (deployment <- c ;; ret {| url := locationOf (id deployment); body := deployment |}) s
    = (Normal response, s') <->
  c s = (Normal (body response), s') /\
  url response = "/deployments/" ++ id (body response).
Proof.
  unfold bind, ret.
  destruct (c s) as [[deployment|e] s1]; split.
  - intros [= <- <-]. simpl. split; reflexivity.
  - intros [[= -> ->] Hurl]. destruct response as [u b]; simpl in *.
    now rewrite Hurl.
  - discriminate.
  - intros [[=] _].
Qed.

Lemma created_response_throw (c : M S DeploymentDto) (s s' : S) (e : string) :
  (deployment <- c ;; ret {| url := locationOf (id deployment); body := deployment |}) s
    = (Throw e, s') <->
  c s = (Throw e, s').
Proof.
  unfold bind, ret.
  destruct (c s) as [[deployment|e1] s1]; split; congruence.
Qed.

(** C8: the answer of [copyDeployment] does not depend on [force].  Two
    calls that differ in it alone, on the same service in the same
    state, end in the same response (or the same rejection) and the same
    service state; and a service that logs its calls has logged the same
    one call, [copyDeployment(deploymentId, identity)], whatever [force]
    was. *)
Theorem copyDeployment_ignores_force
    (force1 force2 : QueryValue) (deploymentId : string) (identity : Identity) :
  (forall s : S,
     copyDeployment service force1 deploymentId identity s =
     copyDeployment service force2 deploymentId identity s) /\
  (forall (calls : list ServiceCall) (s : S),
     fst (snd (copyDeployment (spy service) force1 deploymentId identity (calls, s))) =
       (calls ++ [CopyDeploymentCall deploymentId identity])%list /\
     fst (snd (copyDeployment (spy service) force2 deploymentId identity (calls, s))) =
       (calls ++ [CopyDeploymentCall deploymentId identity])%list).
Proof.
  split.
  - intros s. reflexivity.
  - intros calls s.
    unfold copyDeployment, bind, spy, logged; simpl.
    destruct (service_copyDeployment service deploymentId identity s) as [[d|e] s'];
      split; reflexivity.
Qed.

(** C9: [createDeployment] and [copyDeployment] answer with a response
    exactly when the service returned a deployment; the body is that
    deployment and the url is '/deployments/' followed by the id of the
    body. *)
Theorem created_location_is_body_id :
  (forall (request : CreateDeploymentDto) (identity : Identity)
          (s s' : S) (response : CreatedResponse),
     createDeployment service request identity s = (Normal response, s') <->
     service_createDeployment service request identity s = (Normal (body response), s') /\
     url response = "/deployments/" ++ id (body response)) /\
  (forall (force : QueryValue) (deploymentId : string) (identity : Identity)
          (s s' : S) (response : CreatedResponse),
     copyDeployment service force deploymentId identity s = (Normal response, s') <->
     service_copyDeployment service deploymentId identity s = (Normal (body response), s') /\
     url response = "/deployments/" ++ id (body response)).
Proof.
  split; intros; apply created_response_iff.
Qed.

End Facts.

(** The handlers on the sample service. *)

Example copyDeployment_sample :
  copyDeployment sample_service (QueryString "true") "a" "alice" [("a", "web")] =
  (Normal (@Build_CreatedResponse sample_dtos "/deployments/a-copy" ("a-copy", "web")),
   [("a", "web"); ("a-copy", "web")]).
Proof. reflexivity. Qed.

Example copyDeployment_sample_rejected :
  copyDeployment sample_service QueryUndefined "b" "alice" [("a", "web")] =
  (Throw "NotFound", [("a", "web")]).
Proof. reflexivity. Qed.

Lemma created_location_sample :
  sample_create "web" "alice" [] = (Normal ("id-of-web", "web"), [("id-of-web", "web")]) /\
  createDeployment sample_service "web" "alice" [] =
    (Normal (@Build_CreatedResponse sample_dtos "/deployments/id-of-web" ("id-of-web", "web")),
     [("id-of-web", "web")]).
Proof.
  split; [reflexivity|].
  apply (proj1 (@created_location_is_body_id sample_dtos _ sample_service)).
  split; reflexivity.
Defined.

End DeployHttpControllerFacts.

(** ** dyo-checkbox.tsx *)
Module DyoCheckboxFacts.

Import DyoCheckbox JsFacts.

Section Facts.

Context {MouseEvent ChangeEvent AppState : Type}.

#[local] Abbreviation Props := (DyoCheckboxProps MouseEvent ChangeEvent AppState).
#[local] Abbreviation Ev := (Event MouseEvent ChangeEvent).
#[local] Abbreviation Calls := (list (Call MouseEvent ChangeEvent)).

Lemma notb_expected_value (props : Props) : notb (checked props) = expected_value props.
Proof.
  unfold notb, expected_value, truthy. now destruct (checked props) as [[]|].
Qed.


Lemma dispatch_handle (props : Props) (event : Ev) (w : World MouseEvent ChangeEvent AppState) :
  dispatch (DyoCheckbox props) event w =
  handleCheckedChange props (expected_value props) event w.
Proof.
  destruct event; simpl; now rewrite notb_expected_value.
Qed.

(** The handler, whatever the callbacks do: the calls it makes are the
    expected ones from the first on, in order, all of them unless a
    callback threw. *)
Lemma handleCheckedChange_calls (props : Props) (event : Ev) (calls : Calls) (s : AppState) :
  exists (made rest : Calls) (r : completion unit) (s' : AppState),
    handleCheckedChange props (expected_value props) event (calls, s) =
      (r, ((calls ++ made)%list, s')) /\
    expected_calls props event = (made ++ rest)%list /\
    (r = Normal tt -> rest = []).
Proof.
  unfold handleCheckedChange, expected_calls, bind, call, ret.
  destruct (setFieldValue props) as [f|], (onCheckedChange props) as [g|]; simpl.
  - destruct (f (name props) (expected_value props) false s) as [[[]|e] s1]; simpl.
    + destruct (g (expected_value props) event s1) as [r s2].
      exists [SetFieldValueCall (name props) (expected_value props) false;
              OnCheckedChangeCall (expected_value props) event], [], r, s2.
      rewrite <- app_assoc. simpl. repeat split.
    + exists [SetFieldValueCall (name props) (expected_value props) false],
             [OnCheckedChangeCall (expected_value props) event], (Throw e), s1.
      repeat split. discriminate.
  - destruct (f (name props) (expected_value props) false s) as [[[]|e] s1]; simpl.
    + exists [SetFieldValueCall (name props) (expected_value props) false], [], (Normal tt), s1.
      repeat split.
    + exists [SetFieldValueCall (name props) (expected_value props) false], [], (Throw e), s1.
      repeat split.
  - destruct (g (expected_value props) event s) as [r s1].
    exists [OnCheckedChangeCall (expected_value props) event], [], r, s1.
    repeat split.
  - exists [], [], (Normal tt), s. rewrite app_nil_r. repeat split.
Qed.


End Facts.

(** The handler on the sample form. *)


Example click_unchecked :
  dispatch (DyoCheckbox (sample_props None)) (Click tt) ([], []) =
  (Normal tt,
   ([SetFieldValueCall (Some "agree") true false; OnCheckedChangeCall true (Click tt)],
    [(Some "agree", true)])).
Proof. reflexivity. Qed.

Example change_checked :
  dispatch (DyoCheckbox (sample_props (Some true))) (Change tt) ([], []) =
  (Normal tt,
   ([SetFieldValueCall (Some "agree") false false; OnCheckedChangeCall false (Change tt)],
    [(Some "agree", false)])).
Proof. reflexivity. Qed.

(** A [setFieldValue] that throws ends the handler: [onCheckedChange] is
    not reached. *)
Example click_setFieldValue_throws :
  dispatch (DyoCheckbox (sample_props_throwing (Some false))) (Click tt) ([], []) =
  (Throw "TypeError", ([SetFieldValueCall (Some "agree") true false], [])).
Proof. reflexivity. Qed.

End DyoCheckboxFacts.

(** ** node-mappers.ts: further properties *)
Module NodeMappersMore.

Import NodeMappers JsFacts NodeMappersFacts.

Section Facts.

Context {imports : Imports}.

(** X1: protocol to display and back is the identity on DOCKER and K8S
    and on nothing else: every other protocol number comes back as K8S. *)
Theorem node_type_grpc_round_trip_collapses (first second : string) (type : Z) :
  NODE_TYPE_VALUES = [first; second] ->
  first <> second ->
  exists ui : string,
    nodeTypeGrpcToUi type = Some ui /\
    (type <> GrpcNodeType_DOCKER -> nodeTypeUiToGrpc ui = GrpcNodeType_K8S) /\
    (nodeTypeUiToGrpc ui = type <->
     type = GrpcNodeType_DOCKER \/ type = GrpcNodeType_K8S).
Proof.
  intros Hvalues Hnames.
  assert (H0 : index NODE_TYPE_VALUES 0 = Some first) by now rewrite Hvalues.
  assert (H1 : index NODE_TYPE_VALUES 1 = Some second) by now rewrite Hvalues.
  assert (Hfirst : nodeTypeUiToGrpc first = GrpcNodeType_DOCKER).
  { apply nodeTypeUiToGrpc_first. now rewrite H0. }
  assert (Hsecond : nodeTypeUiToGrpc second = GrpcNodeType_K8S).
  { apply nodeTypeUiToGrpc_other. rewrite H0. congruence. }
  destruct (Z.eq_dec type GrpcNodeType_DOCKER) as [-> | Hne].
  - exists first. rewrite nodeTypeGrpcToUi_docker, Hfirst.
    split; [exact H0|]. split; [congruence|]. split; [now left | reflexivity].
  - exists second. rewrite (nodeTypeGrpcToUi_other _ Hne), Hsecond.
    split; [exact H1|]. split; [reflexivity|]. split.
    + intros <-. now right.
    + intros [-> | ->]; [contradiction | reflexivity].
Qed.

(** X2: display to protocol and back returns the name it was given
    exactly for the two entries of NODE_TYPE_VALUES: every string other
    than the first entry comes back as the second entry. *)
Theorem node_type_ui_round_trip_collapses (first second type : string) :
  NODE_TYPE_VALUES = [first; second] ->
  GrpcNodeType_DOCKER <> GrpcNodeType_K8S ->
  (type <> first -> nodeTypeGrpcToUi (nodeTypeUiToGrpc type) = Some second) /\
  (nodeTypeGrpcToUi (nodeTypeUiToGrpc type) = Some type <-> In type NODE_TYPE_VALUES).
Proof.
  intros Hvalues Henum.
  assert (H0 : index NODE_TYPE_VALUES 0 = Some first) by now rewrite Hvalues.
  assert (H1 : index NODE_TYPE_VALUES 1 = Some second) by now rewrite Hvalues.
  assert (Hother : type <> first ->
                   nodeTypeGrpcToUi (nodeTypeUiToGrpc type) = Some second).
  { intros Hne. rewrite nodeTypeUiToGrpc_other by (rewrite H0; congruence).
    rewrite nodeTypeGrpcToUi_other by congruence. exact H1. }
  split; [exact Hother|].
  rewrite Hvalues. simpl.
  destruct (string_dec type first) as [-> | Hne].
  - rewrite nodeTypeUiToGrpc_first by now rewrite H0.
    rewrite nodeTypeGrpcToUi_docker, H0. split; [now left | reflexivity].
  - rewrite (Hother Hne). split.
    + intros [= ->]. right. now left.
    + intros [-> | [-> | []]]; [contradiction | reflexivity].
Qed.

(** X3: when the four operation members are different numbers, the
    operation can be read back from the member: the result is
    START_CONTAINER only for 'start', STOP_CONTAINER only for 'stop',
    RESTART_CONTAINER only for 'restart', and UNRECOGNIZED exactly for
    the strings that are none of the three. *)
Theorem containerOperationToProto_faithful (it : string) :
  NoDup [START_CONTAINER; STOP_CONTAINER; RESTART_CONTAINER; UNRECOGNIZED] ->
  (containerOperationToProto it = START_CONTAINER <-> it = "start") /\
  (containerOperationToProto it = STOP_CONTAINER <-> it = "stop") /\
  (containerOperationToProto it = RESTART_CONTAINER <-> it = "restart") /\
  (containerOperationToProto it = UNRECOGNIZED <->
   it <> "start" /\ it <> "stop" /\ it <> "restart").
Proof.
  intros Hdistinct.
  assert (Hd : START_CONTAINER <> STOP_CONTAINER /\
               START_CONTAINER <> RESTART_CONTAINER /\
               START_CONTAINER <> UNRECOGNIZED /\
               STOP_CONTAINER <> RESTART_CONTAINER /\
               STOP_CONTAINER <> UNRECOGNIZED /\
               RESTART_CONTAINER <> UNRECOGNIZED).
  { inversion Hdistinct as [|? ? Hn1 Hrest1]; subst.
    inversion Hrest1 as [|? ? Hn2 Hrest2]; subst.
    inversion Hrest2 as [|? ? Hn3 _]; subst.
    simpl in Hn1, Hn2, Hn3. repeat split; intros Heq; symmetry in Heq; tauto. }
  destruct Hd as (H12 & H13 & H14 & H23 & H24 & H34).
  unfold containerOperationToProto.
  destruct (String.eqb_spec it "start") as [-> | Hstart].
  { repeat split; try congruence; try discriminate; tauto. }
  destruct (String.eqb_spec it "stop") as [-> | Hstop].
  { repeat split; try congruence; try discriminate; tauto. }
  destruct (String.eqb_spec it "restart") as [-> | Hrestart].
  { repeat split; try congruence; try discriminate; tauto. }
  repeat split; try congruence; try tauto.
Qed.

End Facts.

Lemma node_type_grpc_round_trip_collapses_sample :
  exists ui : string,
    @nodeTypeGrpcToUi sample_imports 7 = Some ui /\
    @nodeTypeUiToGrpc sample_imports ui = 2.
Proof.
  assert (Hnames : "docker" <> "k8s") by discriminate.
  destruct (@node_type_grpc_round_trip_collapses sample_imports "docker" "k8s" 7
              eq_refl Hnames) as (ui & Hui & Hcollapse & _).
  exists ui. split; [exact Hui|]. apply Hcollapse. discriminate.
Defined.

Lemma node_type_ui_round_trip_collapses_sample :
  @nodeTypeGrpcToUi sample_imports (@nodeTypeUiToGrpc sample_imports "swarm") = Some "k8s".
Proof.
  assert (Henum : 1 <> 2) by discriminate.
  apply (@node_type_ui_round_trip_collapses sample_imports "docker" "k8s" "swarm"
           eq_refl Henum).
  discriminate.
Defined.

Lemma sample_members_distinct : NoDup [1; 2; 3; -1].
Proof.
  repeat constructor; simpl; intros H;
    repeat (destruct H as [H | H]; [discriminate H|]); exact H.
Defined.

Lemma containerOperationToProto_faithful_sample :
  @containerOperationToProto sample_imports "pause" = -1 /\
  "pause" <> "stop".
Proof.
  destruct (@containerOperationToProto_faithful sample_imports "pause"
              sample_members_distinct) as (_ & _ & _ & Hunrecognized).
  split.
  - reflexivity.
  - apply Hunrecognized. reflexivity.
Defined.

End NodeMappersMore.

(** ** deploy.http.controller.ts: further properties *)
Module DeployHttpControllerMore.

Import DeployHttpController DeployHttpHandlers JsFacts DeployHttpControllerFacts.

Lemma bind_ret_r {W A} (c : M W A) (w : W) : (a <- c ;; ret a) w = c w.
Proof.
  unfold bind, ret. now destruct (c w) as [[a|e] w'].
Qed.

(** Awaiting a call and dropping what it resolved to. *)
Lemma bind_drop_iff {W A} (c : M W A) (w w' : W) :
  ((_ <- c ;; ret tt) w = (Normal tt, w') <-> exists a : A, c w = (Normal a, w')) /\
  (forall e : string, (_ <- c ;; ret tt) w = (Throw e, w') <-> c w = (Throw e, w')).
Proof.
  unfold bind, ret. destruct (c w) as [[a|e1] w1]; split.
  - split; [intros [= <-]; now exists a | intros [a' [= _ <-]]; reflexivity].
  - intros e. split; discriminate.
  - split; [discriminate | intros [a' [=]]].
  - intros e. split; congruence.
Qed.

Lemma locationOf_injective (a b : string) : locationOf a = locationOf b -> a = b.
Proof.
  unfold locationOf, ROUTE_DEPLOYMENTS. simpl. now intros [=].
Qed.

Section Facts.

Context {dtos : Dtos} {S : Type}.
Variable service : DeployService S.

(** X4: the location identifies the deployment.  [locationOf] is
    injective, so the response to a create and the response to a copy
    carry the same url exactly when their bodies have the same id. *)
Theorem location_identifies_deployment :
  (forall a b : string, locationOf a = locationOf b <-> a = b) /\
  (forall (request : CreateDeploymentDto) (identity1 identity2 : Identity)
          (force : QueryValue) (deploymentId : string)
          (s1 s1' s2 s2' : S) (created copied : CreatedResponse),
     createDeployment service request identity1 s1 = (Normal created, s1') ->
     copyDeployment service force deploymentId identity2 s2 = (Normal copied, s2') ->
     (url created = url copied <-> id (body created) = id (body copied))).
Proof.
  split.
  - intros a b. split; [apply locationOf_injective | now intros ->].
  - intros request identity1 identity2 force deploymentId s1 s1' s2 s2' created copied
           Hcreated Hcopied.
    apply created_response_iff in Hcreated, Hcopied.
    destruct Hcreated as [_ Hurl1], Hcopied as [_ Hurl2].
    rewrite Hurl1, Hurl2, <- !locationOf_deployments.
    split; [apply locationOf_injective | now intros ->].
Qed.

(** X5: a rejection of the service is the rejection of the handler.
    [createDeployment] and [copyDeployment] throw exactly when the
    awaited service call throws, with the same error and the service in
    the same state; there is then no response and no location. *)
Theorem created_handlers_reject_with_service :
  (forall (request : CreateDeploymentDto) (identity : Identity) (s s' : S) (e : string),
     createDeployment service request identity s = (Throw e, s') <->
     service_createDeployment service request identity s = (Throw e, s')) /\
  (forall (force : QueryValue) (deploymentId : string) (identity : Identity)
          (s s' : S) (e : string),
     copyDeployment service force deploymentId identity s = (Throw e, s') <->
     service_copyDeployment service deploymentId identity s = (Throw e, s')).
Proof.
  split; intros; apply created_response_throw.
Qed.

End Facts.

Section Operations.

Context {dtos : Dtos} {more : MoreDtos} {S : Type}.
Variable service : DeployOperations S.

(** X6: an instance and its secrets are fetched by [instanceId] alone.
    The answer of [getInstance] and of [getDeploymentSecrets] is the
    answer of the service for that instance, whatever deployment id the
    path carried. *)
Theorem instance_handlers_ignore_deployment
    (deploymentId1 deploymentId2 instanceId : string) (s : S) :
  getInstance service deploymentId1 instanceId s =
    service_getInstance service instanceId s /\
  getInstance service deploymentId1 instanceId s =
    getInstance service deploymentId2 instanceId s /\
  getDeploymentSecrets service deploymentId1 instanceId s =
    service_getInstanceSecrets service instanceId s /\
  getDeploymentSecrets service deploymentId1 instanceId s =
    getDeploymentSecrets service deploymentId2 instanceId s.
Proof.
  unfold getInstance, getDeploymentSecrets.
  rewrite !bind_ret_r. repeat split.
Qed.

(** X7: the reading handlers add nothing to what the service answers.
    Value, rejection and service state of [getDeployments],
    [getDeploymentDetails], [getDeploymentEvents] and [deploymentLog] are
    those of the one service call each of them makes. *)
Theorem read_handlers_transparent (s : S) :
  (forall identity : Identity,
     getDeployments service identity s = service_getDeployments service identity s) /\
  (forall deploymentId : string,
     getDeploymentDetails service deploymentId s =
     service_getDeploymentDetails service deploymentId s) /\
  (forall deploymentId : string,
     getDeploymentEvents service deploymentId s =
     service_getDeploymentEvents service deploymentId s) /\
  (forall (deploymentId : string) (query : PaginationQuery),
     deploymentLog service deploymentId query s =
     service_getDeploymentLog service deploymentId query s).
Proof.
  repeat split; intros;
    unfold getDeployments, getDeploymentDetails, getDeploymentEvents, deploymentLog;
    try apply bind_ret_r; reflexivity.
Qed.

(** X8: the handlers that answer 204 return nothing of what the service
    resolved to.  [patchDeployment], [patchInstance], [deleteDeployment]
    and [startDeployment] return undefined exactly when the service call
    returns, whatever it returned, and throw exactly when it throws,
    with the same error. *)
Theorem void_handlers_drop_answer (s s' : S) :
  (forall (deploymentId : string) (request : PatchDeploymentDto) (identity : Identity),
     (patchDeployment service deploymentId request identity s = (Normal tt, s') <->
      exists a, service_patchDeployment service deploymentId request identity s
                = (Normal a, s')) /\
     (forall e, patchDeployment service deploymentId request identity s = (Throw e, s') <->
                service_patchDeployment service deploymentId request identity s
                = (Throw e, s'))) /\
  (forall (deploymentId instanceId : string) (request : PatchInstanceDto)
          (identity : Identity),
     (patchInstance service deploymentId instanceId request identity s = (Normal tt, s') <->
      exists a, service_patchInstance service deploymentId instanceId request identity s
                = (Normal a, s')) /\
     (forall e,
        patchInstance service deploymentId instanceId request identity s = (Throw e, s') <->
        service_patchInstance service deploymentId instanceId request identity s
        = (Throw e, s'))) /\
  (forall deploymentId : string,
     (deleteDeployment service deploymentId s = (Normal tt, s') <->
      exists a, service_deleteDeployment service deploymentId s = (Normal a, s')) /\
     (forall e, deleteDeployment service deploymentId s = (Throw e, s') <->
                service_deleteDeployment service deploymentId s = (Throw e, s'))) /\
  (forall (deploymentId : string) (identity : Identity),
     (startDeployment service deploymentId identity s = (Normal tt, s') <->
      exists a, service_startDeployment service deploymentId identity s = (Normal a, s')) /\
     (forall e, startDeployment service deploymentId identity s = (Throw e, s') <->
                service_startDeployment service deploymentId identity s = (Throw e, s'))).
Proof.
  repeat apply conj; intros; apply bind_drop_iff.
Qed.

End Operations.

(** A deployment and its copy on the sample service: two ids, two
    locations. *)
Lemma location_identifies_deployment_sample :
  "/deployments/id-of-web" <> "/deployments/id-of-web-copy".
Proof.
  intros Hurl.
  assert (Hids : "id-of-web" = "id-of-web-copy"); [|discriminate Hids].
  apply (proj2 (@location_identifies_deployment sample_dtos _ sample_service)
           "web" "alice" "bob" QueryUndefined "id-of-web"
           [] [("id-of-web", "web")]
           [("id-of-web", "web")] [("id-of-web", "web"); ("id-of-web-copy", "web")]
           (@Build_CreatedResponse sample_dtos "/deployments/id-of-web" ("id-of-web", "web"))
           (@Build_CreatedResponse sample_dtos "/deployments/id-of-web-copy"
              ("id-of-web-copy", "web"))
           eq_refl eq_refl).
  exact Hurl.
Defined.

End DeployHttpControllerMore.

(** ** dyo-checkbox.tsx: further properties *)
Module DyoCheckboxMore.

Import DyoCheckbox DyoCheckboxCalls JsFacts DyoCheckboxFacts.

Section Facts.

Context {MouseEvent ChangeEvent AppState : Type}.

#[local] Abbreviation Props := (DyoCheckboxProps MouseEvent ChangeEvent AppState).
#[local] Abbreviation Ev := (Event MouseEvent ChangeEvent).
#[local] Abbreviation Calls := (list (Call MouseEvent ChangeEvent)).

Lemma expected_value_check_mark (props : Props) :
  expected_value props = negb (checkMark (DyoCheckbox props)).
Proof.
  simpl. rewrite negb_involutive. symmetry. apply notb_expected_value.
Qed.

Lemma expected_calls_values (props : Props) (event : Ev) :
  Forall (fun c => value_of c = expected_value props) (expected_calls props event).
Proof.
  unfold expected_calls.
  destruct (setFieldValue props), (onCheckedChange props); repeat constructor.
Qed.

Lemma expected_calls_length (props : Props) (event : Ev) :
  (length (expected_calls props event) <= 2)%nat.
Proof.
  unfold expected_calls.
  destruct (setFieldValue props), (onCheckedChange props); simpl; lia.
Qed.

(** X9: what a click reports is the opposite of what the box shows.
    Whatever the callbacks do, the handler makes at most two calls, and
    every call it makes carries [true] when no check mark is drawn and
    [false] when one is. *)
Theorem calls_report_opposite_of_check_mark
    (props : Props) (event : Ev) (calls : Calls) (s : AppState) :
  exists made : Calls,
    fst (snd (dispatch (DyoCheckbox props) event (calls, s))) = (calls ++ made)%list /\
    (length made <= 2)%nat /\
    Forall (fun c => value_of c = negb (checkMark (DyoCheckbox props))) made.
Proof.
  rewrite dispatch_handle.
  destruct (handleCheckedChange_calls props event calls s)
    as (made & rest & r & s' & Hrun & Hexpected & _).
  exists made. rewrite Hrun. split; [reflexivity|].
  pose proof (expected_calls_length props event) as Hlen.
  pose proof (expected_calls_values props event) as Hvalues.
  rewrite Hexpected in Hlen, Hvalues.
  rewrite length_app in Hlen. apply Forall_app in Hvalues.
  split; [lia|].
  rewrite <- expected_value_check_mark. apply Hvalues.
Qed.

(** X10: the handler runs the callbacks one after the other on the
    application state.  [onCheckedChange] starts from the state
    [setFieldValue] left; an error thrown by [setFieldValue] ends the
    handler before [onCheckedChange] is called, and an error thrown by
    [onCheckedChange] is the handler's error; in each case the state is
    the one the last callback called left. *)
Theorem handler_sequences_callbacks
    (props : Props) (event : Ev) (calls : Calls) (s : AppState) :
  (forall f g s1 s2,
     setFieldValue props = Some f -> onCheckedChange props = Some g ->
     f (name props) (notb (checked props)) false s = (Normal tt, s1) ->
     g (notb (checked props)) event s1 = (Normal tt, s2) ->
     dispatch (DyoCheckbox props) event (calls, s) =
       (Normal tt,
        ((calls ++ [SetFieldValueCall (name props) (notb (checked props)) false;
                    OnCheckedChangeCall (notb (checked props)) event])%list, s2))) /\
  (forall f e s1,
     setFieldValue props = Some f ->
     f (name props) (notb (checked props)) false s = (Throw e, s1) ->
     dispatch (DyoCheckbox props) event (calls, s) =
       (Throw e,
        ((calls ++ [SetFieldValueCall (name props) (notb (checked props)) false])%list, s1))) /\
  (forall f g e s1 s2,
     setFieldValue props = Some f -> onCheckedChange props = Some g ->
     f (name props) (notb (checked props)) false s = (Normal tt, s1) ->
     g (notb (checked props)) event s1 = (Throw e, s2) ->
     dispatch (DyoCheckbox props) event (calls, s) =
       (Throw e,
        ((calls ++ [SetFieldValueCall (name props) (notb (checked props)) false;
                    OnCheckedChangeCall (notb (checked props)) event])%list, s2))) /\
  (forall g e s1,
     setFieldValue props = None -> onCheckedChange props = Some g ->
     g (notb (checked props)) event s = (Throw e, s1) ->
     dispatch (DyoCheckbox props) event (calls, s) =
       (Throw e, ((calls ++ [OnCheckedChangeCall (notb (checked props)) event])%list, s1))).
Proof.
  assert (Hrun : dispatch (DyoCheckbox props) event (calls, s) =
                 handleCheckedChange props (notb (checked props)) event (calls, s))
    by now destruct event.
  rewrite Hrun. unfold handleCheckedChange, bind, call, ret.
  split; [|split; [|split]].
  - intros f g s1 s2 -> -> Hf Hg. simpl. rewrite Hf. simpl. rewrite Hg.
    now rewrite <- app_assoc.
  - intros f e s1 -> Hf. simpl. now rewrite Hf.
  - intros f g e s1 s2 -> -> Hf Hg. simpl. rewrite Hf. simpl. rewrite Hg.
    now rewrite <- app_assoc.
  - intros g e s1 -> -> Hg. simpl. now rewrite Hg.
Qed.

(** X11: a checkbox whose parent stores the reported value in [checked]
    toggles.  After one such update the check mark is the opposite of
    what it was; after two it is what it was at the start, and the
    handler reports the value it reported at the start. *)
Theorem controlled_checkbox_toggles
    (props props' props'' : Props) (event : Ev)
    (w : World MouseEvent ChangeEvent AppState) :
  checked props' = Some (notb (checked props)) ->
  checked props'' = Some (notb (checked props')) ->
  checkMark (DyoCheckbox props') = negb (checkMark (DyoCheckbox props)) /\
  checkMark (DyoCheckbox props'') = checkMark (DyoCheckbox props) /\
  dispatch (DyoCheckbox props'') event w =
    handleCheckedChange props'' (notb (checked props)) event w.
Proof.
  intros Hfirst Hsecond.
  assert (Hback : notb (checked props'') = notb (checked props)).
  { rewrite Hsecond, Hfirst. unfold notb, truthy.
    now destruct (checked props) as [[]|]. }
  split; [|split].
  - simpl. rewrite Hfirst. unfold notb, truthy.
    now destruct (checked props) as [[]|].
  - simpl. now rewrite Hback.
  - destruct event; simpl; now rewrite Hback.
Qed.

End Facts.

(** The sample form: a click on the unchecked box, the parent's update,
    a second click, the second update. *)
Lemma controlled_checkbox_toggles_sample :
  checkMark (DyoCheckbox (sample_props (Some true))) = true /\
  checkMark (DyoCheckbox (sample_props (Some false))) = false.
Proof.
  destruct (controlled_checkbox_toggles
              (sample_props None) (sample_props (Some true)) (sample_props (Some false))
              (Click tt) ([], []) eq_refl eq_refl) as (Hflip & Hback & _).
  split; [exact Hflip | exact Hback].
Defined.

Lemma handler_sequences_callbacks_sample :
  dispatch (DyoCheckbox (sample_props_throwing (Some false))) (Change tt) ([], []) =
  (Throw "TypeError", ([SetFieldValueCall (Some "agree") true false], [])).
Proof.
  apply (proj1 (proj2 (handler_sequences_callbacks
                         (sample_props_throwing (Some false)) (Change tt) [] [])))
    with (f := fun _ _ _ form => (Throw "TypeError", form)); reflexivity.
Defined.

End DyoCheckboxMore.
